(* ===================================================================== *)
(* Shallow embedding of htdocs/js/console-manager.js                     *)
(*   - AdaptivePerformanceSystem: timeouts, network/device detection,    *)
(*     metrics history, executeWithRetry, executeWithTimeout             *)
(*   - ConsoleManager: console.error / console.warn suppression          *)
(* ===================================================================== *)

From Stdlib Require Import QArith Qpower Qround ZArith Lia Ascii.
From stdpp Require Import base gmap strings list pretty.

Open Scope Z_scope.

(* --------------------------------------------------------------------- *)
(* JavaScript numbers used by the code                                   *)
(* --------------------------------------------------------------------- *)

(** [Math.round x] rounds half-way cases towards +infinity: floor (x + 1/2).
    Numbers are modelled as exact rationals. *)
Definition Math_round (x : Q) : Z := Qfloor (x + (1 # 2))%Q.

(** [Math.pow b e] for an integer exponent. *)
Definition Math_pow (b : Q) (e : Z) : Q := Qpower b e.

(* --------------------------------------------------------------------- *)
(* AdaptivePerformanceSystem state                                       *)
(* --------------------------------------------------------------------- *)

(** The only values ever assigned to [this.networkSpeed]. *)
Inductive network_speed := fast | normal | slow.
(** The only values ever assigned to [this.deviceCapability]. *)
Inductive device_capability := high | medium | low.

(** An entry of [this.performanceMetrics]: [{...metric, timestamp}]. *)
Record metric := {
  m_type : string;
  m_name : string;
  m_duration : Q;
  m_size : Z;
  m_timestamp : Z
}.

Record aps := {
  networkSpeed : network_speed;
  deviceCapability : device_capability;
  performanceMetrics : list metric
}.

(** [this.baseTimeouts] *)
Definition baseTimeouts : gmap string Z :=
  list_to_map [("loginCheck", 8000); ("userFetch", 8000);
               ("warningPanel", 5000); ("autoCancel", 5000);
               ("bookingsLoad", 15000); ("notifications", 5000);
               ("firebaseUser", 45000); ("debounce", 300);
               ("scrollDelay", 150)].

Definition retryAttempts : Z := 3.
Definition retryBackoffMultiplier : Q := 3 # 2.
Definition maxMetricsHistory : nat := 100.

(** The names [obj[key]] finds on [Object.prototype] for a plain object
    literal such as [this.baseTimeouts]: inherited methods, and the
    [__proto__] accessor (which yields [Object.prototype] itself). *)
Definition object_prototype_members : list string :=
  ["constructor"; "__defineGetter__"; "__defineSetter__"; "hasOwnProperty";
   "__lookupGetter__"; "__lookupSetter__"; "isPrototypeOf";
   "propertyIsEnumerable"; "toString"; "valueOf"; "__proto__"; "toLocaleString"].

(** A JavaScript number as the code produces it: a finite value or NaN. *)
Inductive number := Num (z : Z) | NaN.

(** What [this.baseTimeouts[operation] || 5000] evaluates to: a number, or
    an inherited member (a function or an object, both truthy). *)
Inductive base_value := BNum (ms : Z) | BInherited.

(** [this.baseTimeouts[operation] || 5000]: every stored value is non-zero;
    a missing own key falls back to 5000 unless the prototype chain has a
    member of that name, which [||] keeps. *)
Definition base_timeout (operation : string) : base_value :=
  match baseTimeouts !! operation with
  | Some b => if Z.eqb b 0 then BNum 5000 else BNum b
  | None =>
      if existsb (String.eqb operation) object_prototype_members then BInherited
      else BNum 5000
  end.

(** [{ fast: 0.8, normal: 1.0, slow: 2.0 }[this.networkSpeed] || 1.0] *)
Definition networkMultiplier (s : network_speed) : Q :=
  match s with fast => 8 # 10 | normal => 1 | slow => 2 end.

(** [{ high: 0.8, medium: 1.0, low: 1.5 }[this.deviceCapability] || 1.0] *)
Definition deviceMultiplier (d : device_capability) : Q :=
  match d with high => 8 # 10 | medium => 1 | low => 15 # 10 end.

(** [getTimeout(operation)] (the console.log of the details is omitted).
    A function or object times a number is NaN (its [ToNumber] is NaN), and
    [Math.round(NaN)] is NaN. *)
Definition getTimeout (st : aps) (operation : string) : number :=
  match base_timeout operation with
  | BNum b =>
      Num (Math_round (inject_Z b
                       * networkMultiplier (networkSpeed st)
                       * deviceMultiplier (deviceCapability st))%Q)
  | BInherited => NaN
  end.

Example getTimeout_ex1 :
  getTimeout {| networkSpeed := fast; deviceCapability := high;
                performanceMetrics := [] |} "bookingsLoad" = Num 9600.
Proof. vm_compute. reflexivity. Qed.

Example getTimeout_ex2 :
  getTimeout {| networkSpeed := slow; deviceCapability := low;
                performanceMetrics := [] |} "nosuchOp" = Num 15000.
Proof. vm_compute. reflexivity. Qed.

Example getTimeout_ex3 :
  getTimeout {| networkSpeed := normal; deviceCapability := medium;
                performanceMetrics := [] |} "toString" = NaN.
Proof. vm_compute. reflexivity. Qed.

(* --------------------------------------------------------------------- *)
(* Browser signals read by the detectors                                 *)
(* --------------------------------------------------------------------- *)

(** A [NetworkInformation] object: [effectiveType] and [downlink]. *)
Record connection_info := {
  effectiveType : option string;
  downlink : option Q
}.

(** [window.performance.timing] (only the two fields the code reads). *)
Record timing_info := {
  navigationStart : Z;
  loadEventEnd : Z
}.

Record browser := {
  nav_connection : option connection_info;
  nav_mozConnection : option connection_info;
  nav_webkitConnection : option connection_info;
  (** [window.performance && window.performance.timing]: [None] when
      either is missing *)
  perf_timing : option timing_info;
  (** [navigator.hardwareConcurrency], [navigator.deviceMemory]
      ([None] when undefined) *)
  hardwareConcurrency : option Z;
  deviceMemory : option Q;
  (** result of the user-agent regular expression test *)
  isMobileUA : bool
}.

Definition set_network (s : network_speed) (st : aps) : aps :=
  {| networkSpeed := s; deviceCapability := deviceCapability st;
     performanceMetrics := performanceMetrics st |}.

Definition set_device (d : device_capability) (st : aps) : aps :=
  {| networkSpeed := networkSpeed st; deviceCapability := d;
     performanceMetrics := performanceMetrics st |}.

Definition set_metrics (ms : list metric) (st : aps) : aps :=
  {| networkSpeed := networkSpeed st; deviceCapability := deviceCapability st;
     performanceMetrics := ms |}.

(** [navigator.connection || navigator.mozConnection || navigator.webkitConnection] *)
Definition connection_of (b : browser) : option connection_info :=
  match nav_connection b with
  | Some c => Some c
  | None => match nav_mozConnection b with
            | Some c => Some c
            | None => nav_webkitConnection b
            end
  end.

Definition str_is (o : option string) (s : string) : bool :=
  match o with Some x => String.eqb x s | None => false end.

(** [detectNetworkSpeed()]. No property access in the [try] block can throw
    on the modelled values, so the [catch] branch is not reachable here. *)
Definition detectNetworkSpeed (b : browser) (st : aps) : aps :=
  match connection_of b with
  | Some c =>
      let et := effectiveType c in
      if str_is et "4g" || str_is et "wifi" then set_network fast st
      else if str_is et "3g" then set_network normal st
      else if str_is et "2g" || str_is et "slow-2g" then set_network slow st
      else st
  | None =>
      match perf_timing b with
      | Some timing =>
          let pageLoadTime := loadEventEnd timing - navigationStart timing in
          if 3000 <? pageLoadTime then set_network slow st
          else if 1500 <? pageLoadTime then set_network normal st
          else set_network fast st
      | None => st
      end
  end.

(** [detectDeviceCapability()]: [cores = hardwareConcurrency || 1],
    [ram = deviceMemory || 4]. *)
Definition detectDeviceCapability (b : browser) (st : aps) : aps :=
  let cores := match hardwareConcurrency b with
               | Some c => if Z.eqb c 0 then 1 else c | None => 1 end in
  let ram := match deviceMemory b with
             | Some r => if Qeq_bool r 0 then 4%Q else r | None => 4%Q end in
  if (4 <=? cores) && Qle_bool 8 ram && negb (isMobileUA b) then set_device high st
  else if (2 <=? cores) && Qle_bool 4 ram then set_device medium st
  else set_device low st.

Definition Qlt_bool (x y : Q) : bool := negb (Qle_bool y x).

(** One tick of the [setInterval] of [setupMemoryMonitoring], with
    [usage = usedJSHeapSize / jsHeapSizeLimit]. *)
Definition memory_tick (b : browser) (usage : Q) (st : aps) : aps :=
  if Qlt_bool (9 # 10) usage then set_device low st
  else if Qlt_bool usage (1 # 2) &&
          (match deviceCapability st with low => true | _ => false end)
       then detectDeviceCapability b st
       else st.

(** [recordMetric(metric)]: push, then [shift()] when over the bound. *)
Definition recordMetric (m : metric) (st : aps) : aps :=
  let ms := performanceMetrics st ++ [m] in
  set_metrics (if Nat.ltb maxMetricsHistory (length ms) then tail ms else ms) st.

(** [init()]: the two detectors (the monitoring setup only registers
    callbacks, modelled by [memory_tick] and [recordMetric] steps). *)
Definition aps_init (b : browser) (st : aps) : aps :=
  detectDeviceCapability b (detectNetworkSpeed b st).

(** [new AdaptivePerformanceSystem()] *)
Definition aps_new (b : browser) : aps :=
  aps_init b {| networkSpeed := normal; deviceCapability := medium;
                performanceMetrics := [] |}.

(** [reset()]: clear the metrics, then [init()] again. *)
Definition aps_reset (b : browser) (st : aps) : aps :=
  aps_init b (set_metrics [] st).

(** Everything that can happen to the instance after construction. *)
Inductive aps_op :=
| OpDetectNetwork (b : browser)
| OpDetectDevice (b : browser)
| OpMemoryTick (b : browser) (usage : Q)
| OpRecordMetric (m : metric)
| OpGetTimeout (operation : string)
| OpReport
| OpReset (b : browser).

Definition aps_step (st : aps) (o : aps_op) : aps :=
  match o with
  | OpDetectNetwork b => detectNetworkSpeed b st
  | OpDetectDevice b => detectDeviceCapability b st
  | OpMemoryTick b u => memory_tick b u st
  | OpRecordMetric m => recordMetric m st
  | OpGetTimeout _ | OpReport => st
  | OpReset b => aps_reset b st
  end.

Inductive aps_reachable : aps -> Prop :=
| aps_reach_new b : aps_reachable (aps_new b)
| aps_reach_step st o : aps_reachable st -> aps_reachable (aps_step st o).

(* --------------------------------------------------------------------- *)
(* JavaScript values, completions and promises                           *)
(* --------------------------------------------------------------------- *)

(** The values an operation can resolve or reject with. *)
Inductive value :=
| VUndefined
| VNull
| VNum (n : Z)
| VStr (s : string)
| VError (name message : string).

(** The [TypeError] raised when reading [message] of [undefined]. *)
Definition property_type_error : value :=
  VError "TypeError" "Cannot read properties of undefined (reading 'message')".

(** The [TypeError] raised when reading [message] of [null]. *)
Definition null_property_type_error : value :=
  VError "TypeError" "Cannot read properties of null (reading 'message')".

(** Completion of a JavaScript expression. *)
Inductive completion := Normal (v : value) | Throw (e : value).

(** [error.message] *)
Definition get_message (e : value) : completion :=
  match e with
  | VUndefined => Throw property_type_error
  | VNull => Throw null_property_type_error
  | VError _ m => Normal (VStr m)
  | _ => Normal VUndefined
  end.

(** How a promise settles. *)
Inductive settle := Resolved (v : value) | Rejected (e : value).

(* --------------------------------------------------------------------- *)
(* executeWithRetry                                                      *)
(* --------------------------------------------------------------------- *)

(** Observable steps of [executeWithRetry]: the [n]-th call of
    [operation()] and each [setTimeout] wait (its delay in ms). *)
Inductive retry_event := Invoke (n : nat) | Sleep (ms : Z).

(** An operation is described by how its [n]-th invocation ([n >= 1])
    settles; a synchronous throw lands in the same [catch] as a rejection. *)
Definition operation := nat -> settle.

(** [Math.round(1000 * Math.pow(this.retryBackoffMultiplier, attempt - 1))] *)
Definition backoffDelay (attempt : nat) : Z :=
  Math_round (1000 * Math_pow retryBackoffMultiplier (Z.of_nat attempt - 1))%Q.

(** The [for] loop of [executeWithRetry]: [fuel] only bounds the recursion,
    the loop is left through its own condition [attempt <= maxAttempts].
    Leaving the loop runs [throw lastError]. The [console] calls are
    omitted except [error.message] in the warning, which is evaluated
    (and may throw) inside the [catch] block. *)
Fixpoint retry_loop (op : operation) (maxAttempts : Z) (fuel attempt : nat)
    (lastError : value) : settle * list retry_event :=
  match fuel with
  | O => (Rejected lastError, [])
  | S fuel' =>
      if Z.of_nat attempt <=? maxAttempts then
        match op attempt with
        | Resolved result => (Resolved result, [Invoke attempt])
        | Rejected error =>
            match get_message error with
            | Throw t => (Rejected t, [Invoke attempt])
            | Normal _ =>
                if Z.of_nat attempt <? maxAttempts then
                  let '(r, tr) := retry_loop op maxAttempts fuel' (S attempt) error in
                  (r, Invoke attempt :: Sleep (backoffDelay attempt) :: tr)
                else
                  let '(r, tr) := retry_loop op maxAttempts fuel' (S attempt) error in
                  (r, Invoke attempt :: tr)
            end
        end
      else (Rejected lastError, [])
  end.

(** [executeWithRetry(operation, name, maxAttempts)]: [let lastError]
    starts [undefined]. *)
Definition executeWithRetry (op : operation) (maxAttempts : Z)
    : settle * list retry_event :=
  retry_loop op maxAttempts (S (Z.to_nat maxAttempts)) 1 VUndefined.

Definition error_n (n : nat) : value := VError "Error" ("fail " +:+ pretty n).

Example retry_ex1 :
  executeWithRetry (fun n => Rejected (error_n n)) 3 =
  (Rejected (error_n 3), [Invoke 1; Sleep 1000; Invoke 2; Sleep 1500; Invoke 3]).
Proof. vm_compute. reflexivity. Qed.

Example backoff_ex : map backoffDelay [1; 2; 3; 4; 5]%nat = [1000; 1500; 2250; 3375; 5063].
Proof. vm_compute. reflexivity. Qed.

(* --------------------------------------------------------------------- *)
(* executeWithTimeout                                                    *)
(* --------------------------------------------------------------------- *)

(** A pending promise: [Some (t, s)] settles as [s] at time [t] (ms after
    the call), [None] never settles. *)
Definition promise := option (nat * settle).

(** [Promise.race]: the first promise to settle wins; of two settling at
    the same instant the one listed first wins. *)
Fixpoint race (ps : list promise) : promise :=
  match ps with
  | [] => None
  | p :: ps' =>
      match p, race ps' with
      | None, q => q
      | Some _, None => p
      | Some (t, _), Some (t', _) => if (t <=? t')%nat then p else race ps'
      end
  end.

(** What calling [operation()] does: throw synchronously or return a promise. *)
Inductive call_result := CallThrows (e : value) | CallReturns (p : promise).

(** [`${timeout}`] for the numbers [getTimeout] returns. *)
Definition number_to_string (n : number) : string :=
  match n with Num z => pretty z | NaN => "NaN" end.

(** The WebIDL [long] conversion of an integral number (modulo 2^32). *)
Definition webidl_long (z : Z) : Z :=
  let m := z mod 2 ^ 32 in if 2 ^ 31 <=? m then m - 2 ^ 32 else m.

(** The delay [setTimeout] waits for its [timeout] argument: the WebIDL
    [long] conversion (NaN becomes 0), and a negative delay counts as 0. *)
Definition setTimeout_delay (n : number) : nat :=
  match n with Num z => Z.to_nat (webidl_long z) | NaN => O end.

(** [new Error(`${operationName} timeout after ${timeout}ms`)] *)
Definition timeout_error (operationName : string) (timeout : number) : value :=
  VError "Error" (operationName +:+ " timeout after " +:+ number_to_string timeout +:+ "ms").

(** [executeWithTimeout(operation, operationName)]: the promise returned by
    the async function. A synchronous throw of [operation()] rejects it at
    once; otherwise it follows the race of [operation()] and the timer. *)
Definition executeWithTimeout (st : aps) (call : call_result)
    (operationName : string) : promise :=
  let timeout := getTimeout st operationName in
  match call with
  | CallThrows e => Some (0%nat, Rejected e)
  | CallReturns p =>
      race [p; Some (setTimeout_delay timeout,
                     Rejected (timeout_error operationName timeout))]
  end.

(* --------------------------------------------------------------------- *)
(* ConsoleManager                                                        *)
(* --------------------------------------------------------------------- *)

(** [haystack.includes(needle)] *)
Fixpoint includes (haystack needle : string) : bool :=
  String.prefix needle haystack ||
  match haystack with
  | EmptyString => false
  | String _ rest => includes rest needle
  end.

(** Arguments of a console call, each given by its [toString()]
    ([None] for [null]/[undefined]). *)
Definition console_args := list (option string).

(** [args[0]?.toString() || ''] *)
Definition msg_of (args : console_args) : string :=
  match args with
  | Some s :: _ => s
  | _ => ""
  end.

Record console_mgr := {
  suppressedErrors : gset string;
  suppressPatterns : list string;
  productionMode : bool;
  debugCategories : gmap string bool
}.

Definition initialPatterns : list string :=
  ["Tracking Prevention"; "Permissions policy violation"; "accelerometer";
   "streetview.js"; "common.js"; "init_embed.js"; "Permission denied";
   "Error getting bookings"; "Error getting users"; "absences is not defined";
   "firebase-db.js"; "Google Maps"].

Definition initialCategories : gmap string bool :=
  list_to_map [("booking", false); ("auth", false); ("firebase", false);
               ("ui", false); ("all", false)].

(** [new ConsoleManager()] *)
Definition cm_new : console_mgr :=
  {| suppressedErrors := ∅; suppressPatterns := initialPatterns;
     productionMode := true; debugCategories := initialCategories |}.

(** The [for (const pattern of self.suppressPatterns)] loop shared by the
    [console.error] and [console.warn] overrides. Returns whether the call
    reaches the original console function, and the set after the [add]s
    already done (an early [return] keeps them). *)
Fixpoint suppress_scan (key_of : string -> string) (msg : string)
    (patterns : list string) (seen : gset string) : bool * gset string :=
  match patterns with
  | [] => (true, seen)
  | pattern :: rest =>
      if includes msg pattern then
        let key := key_of pattern in
        if bool_decide (key ∈ seen) then (false, seen)
        else suppress_scan key_of msg rest ({[key]} ∪ seen)
      else suppress_scan key_of msg rest seen
  end.

(** [pattern.substring(0, 20)] and ['w-' + pattern.substring(0, 20)] *)
Definition error_key (pattern : string) : string := String.substring 0 20 pattern.
Definition warn_key (pattern : string) : string := "w-" +:+ String.substring 0 20 pattern.

Definition set_suppressed (s : gset string) (st : console_mgr) : console_mgr :=
  {| suppressedErrors := s; suppressPatterns := suppressPatterns st;
     productionMode := productionMode st; debugCategories := debugCategories st |}.

(** What reaches the original [console.error] / [console.warn]. *)
Inductive console_out := OError (args : console_args) | OWarn (args : console_args).

(** The [console.error] override. *)
Definition console_error (st : console_mgr) (args : console_args)
    : console_mgr * list console_out :=
  let '(pass, seen) :=
    suppress_scan error_key (msg_of args) (suppressPatterns st) (suppressedErrors st) in
  (set_suppressed seen st, if pass then [OError args] else []).

(** The [console.warn] override. *)
Definition console_warn (st : console_mgr) (args : console_args)
    : console_mgr * list console_out :=
  let '(pass, seen) :=
    suppress_scan warn_key (msg_of args) (suppressPatterns st) (suppressedErrors st) in
  (set_suppressed seen st, if pass then [OWarn args] else []).

(** [reset()] *)
Definition cm_reset (st : console_mgr) : console_mgr := set_suppressed ∅ st.

(** [enableVerboseMode()] (its closing [console.log] goes to the log
    channel, which is not modelled). *)
Definition enableVerboseMode (st : console_mgr) : console_mgr :=
  {| suppressedErrors := ∅; suppressPatterns := [];
     productionMode := false;
     debugCategories := <["all" := true]> (debugCategories st) |}.

(** [enableProductionMode()] *)
Definition enableProductionMode (st : console_mgr) : console_mgr :=
  {| suppressedErrors := suppressedErrors st; suppressPatterns := suppressPatterns st;
     productionMode := true;
     debugCategories := <["all" := false]> (debugCategories st) |}.

(** [enableDebugCategory(category)]: only existing own properties. *)
Definition enableDebugCategory (category : string) (st : console_mgr) : console_mgr :=
  match debugCategories st !! category with
  | Some _ =>
      {| suppressedErrors := suppressedErrors st; suppressPatterns := suppressPatterns st;
         productionMode := productionMode st;
         debugCategories := <[category := true]> (debugCategories st) |}
  | None => st
  end.

(** The page's calls into the console manager: the overridden console
    functions and the [window] toggles. *)
Inductive console_event :=
| CError (args : console_args)
| CWarn (args : console_args)
| CReset
| CVerbose
| CProduction
| CDebug (category : string).

Definition console_step (st : console_mgr) (ev : console_event)
    : console_mgr * list console_out :=
  match ev with
  | CError args => console_error st args
  | CWarn args => console_warn st args
  | CReset => (cm_reset st, [])
  | CVerbose => (enableVerboseMode st, [])
  | CProduction => (enableProductionMode st, [])
  | CDebug c => (enableDebugCategory c st, [])
  end.

Fixpoint console_run (st : console_mgr) (evs : list console_event)
    : console_mgr * list console_out :=
  match evs with
  | [] => (st, [])
  | ev :: rest =>
      let '(st1, out1) := console_step st ev in
      let '(st2, out2) := console_run st1 rest in
      (st2, out1 ++ out2)
  end.

Example console_ex1 :
  snd (console_run cm_new [CError [Some "accelerometer blocked"];
                           CError [Some "accelerometer blocked"];
                           CError [Some "plain failure"]])
  = [OError [Some "accelerometer blocked"]; OError [Some "plain failure"]].
Proof. vm_compute. reflexivity. Qed.

(* ===================================================================== *)
(* Theorems                                                              *)
(* ===================================================================== *)

(* --------------------------------------------------------------------- *)
(* getTimeout                                                            *)
(* --------------------------------------------------------------------- *)

Lemma base_timeout_cases (operation : string) :
  (In operation object_prototype_members /\ base_timeout operation = BInherited) \/
  (~ In operation object_prototype_members /\
   exists b, base_timeout operation = BNum b /\ b ∈ [8000; 5000; 15000; 45000; 300; 150]).
Proof.
  unfold base_timeout.
  destruct (baseTimeouts !! operation) as [b|] eqn:E.
  - right. apply elem_of_list_to_map_2 in E.
    repeat (apply elem_of_cons in E as [E|E];
            [inversion E; subst; split;
             [vm_compute; intuition discriminate | eexists; split; [reflexivity | set_solver]]|]).
    apply elem_of_nil in E; contradiction.
  - destruct (existsb (String.eqb operation) object_prototype_members) eqn:Ex.
    + left. split; [|reflexivity].
      apply existsb_exists in Ex as (x & Hx & Heq). apply String.eqb_eq in Heq. subst. exact Hx.
    + right. split.
      * intros Hin. assert (Hc : existsb (String.eqb operation) object_prototype_members = true).
        { apply existsb_exists. exists operation. split; [exact Hin | apply String.eqb_refl]. }
        congruence.
      * exists 5000. split; [reflexivity | set_solver].
Qed.

(** C1: for the operation name "constructor" the lookup
    [this.baseTimeouts[operation]] finds the inherited [Object] constructor,
    the [|| 5000] fallback is skipped, and [getTimeout] returns NaN, not
    the rounded product of a base timeout and the two multipliers, in every
    network and device state. *)
Theorem getTimeout_constructor_nan (st : aps) :
  base_timeout "constructor" = BInherited /\ getTimeout st "constructor" = NaN.
Proof. split; reflexivity. Qed.

(* --------------------------------------------------------------------- *)
(* Metrics history                                                       *)
(* --------------------------------------------------------------------- *)

Lemma detectNetworkSpeed_metrics b st :
  performanceMetrics (detectNetworkSpeed b st) = performanceMetrics st.
Proof.
  unfold detectNetworkSpeed. repeat case_match; reflexivity.
Qed.

Lemma detectDeviceCapability_metrics b st :
  performanceMetrics (detectDeviceCapability b st) = performanceMetrics st.
Proof. unfold detectDeviceCapability. repeat case_match; reflexivity. Qed.

Lemma aps_init_metrics b st :
  performanceMetrics (aps_init b st) = performanceMetrics st.
Proof.
  unfold aps_init. rewrite detectDeviceCapability_metrics, detectNetworkSpeed_metrics.
  reflexivity.
Qed.

Lemma recordMetric_metrics m st :
  (length (performanceMetrics st) <= maxMetricsHistory)%nat ->
  performanceMetrics (recordMetric m st) =
    if Nat.ltb (length (performanceMetrics st)) maxMetricsHistory
    then performanceMetrics st ++ [m]
    else tail (performanceMetrics st) ++ [m].
Proof.
  intros Hle. unfold recordMetric, set_metrics; simpl.
  rewrite length_app; simpl.
  destruct (Nat.ltb_spec maxMetricsHistory (length (performanceMetrics st) + 1)),
           (Nat.ltb_spec (length (performanceMetrics st)) maxMetricsHistory); try lia.
  - destruct (performanceMetrics st) eqn:E; simpl in *; [unfold maxMetricsHistory in *; lia|].
    reflexivity.
  - reflexivity.
Qed.

Lemma aps_step_metrics_bound st o :
  (length (performanceMetrics st) <= maxMetricsHistory)%nat ->
  (length (performanceMetrics (aps_step st o)) <= maxMetricsHistory)%nat.
Proof.
  intros Hle. destruct o; cbn [aps_step].
  - rewrite detectNetworkSpeed_metrics; exact Hle.
  - rewrite detectDeviceCapability_metrics; exact Hle.
  - unfold memory_tick.
    repeat case_match; try rewrite detectDeviceCapability_metrics; exact Hle.
  - rewrite recordMetric_metrics by exact Hle.
    destruct (Nat.ltb_spec (length (performanceMetrics st)) maxMetricsHistory).
    + rewrite length_app; simpl; lia.
    + rewrite length_app, length_tl; simpl; unfold maxMetricsHistory in *; lia.
  - exact Hle.
  - exact Hle.
  - unfold aps_reset. rewrite aps_init_metrics. simpl. unfold maxMetricsHistory; lia.
Qed.

(** C9: in every reachable state the metrics history has at most
    [maxMetricsHistory] (100) entries, and [recordMetric] appends the new
    metric, dropping the oldest entry when the history is full. *)
Theorem metrics_history_bounded (st : aps) (Hreach : aps_reachable st) :
  (length (performanceMetrics st) <= 100)%nat /\
  forall m : metric,
    performanceMetrics (recordMetric m st) =
      if Nat.ltb (length (performanceMetrics st)) 100
      then performanceMetrics st ++ [m]
      else tail (performanceMetrics st) ++ [m].
Proof.
  assert (Hb : (length (performanceMetrics st) <= maxMetricsHistory)%nat).
  { induction Hreach as [b|st o _ IH].
    - unfold aps_new. rewrite aps_init_metrics. simpl. unfold maxMetricsHistory; lia.
    - apply aps_step_metrics_bound; exact IH. }
  split; [exact Hb|]. intros m. apply recordMetric_metrics; exact Hb.
Qed.

Definition browser_none : browser :=
  {| nav_connection := None; nav_mozConnection := None; nav_webkitConnection := None;
     perf_timing := None; hardwareConcurrency := None; deviceMemory := None;
     isMobileUA := false |}.

(** The metric recorded for the [i]-th resource timing entry. *)
Definition sample_metric (i : nat) : metric :=
  {| m_type := "resource"; m_name := "r" +:+ pretty i; m_duration := 1;
     m_size := 0; m_timestamp := Z.of_nat i |}.

(** A new instance after recording the resources [0], ..., [n-1]. *)
Definition history_after (n : nat) : aps :=
  fold_left (fun st i => aps_step st (OpRecordMetric (sample_metric i)))
    (seq 0 n) (aps_new browser_none).

Lemma history_after_reachable (n : nat) : aps_reachable (history_after n).
Proof.
  unfold history_after. generalize (aps_new browser_none) (aps_reach_new browser_none).
  generalize (seq 0 n). intros l. induction l as [|i l IH]; intros st Hst; simpl.
  - exact Hst.
  - apply IH. exact (aps_reach_step st (OpRecordMetric (sample_metric i)) Hst).
Qed.

Lemma metrics_history_bounded_witness :
  (length (performanceMetrics (history_after 100)) <= 100)%nat /\
  map m_timestamp (performanceMetrics (recordMetric (sample_metric 100) (history_after 100))) =
    map Z.of_nat (seq 1 100).
Proof.
  destruct (metrics_history_bounded (history_after 100) (history_after_reachable 100))
    as [H1 H2].
  split; [exact H1|]. rewrite H2. vm_compute. reflexivity.
Defined.

(* --------------------------------------------------------------------- *)
(* executeWithRetry                                                      *)
(* --------------------------------------------------------------------- *)

Definition nonnullish (v : value) : bool :=
  match v with VUndefined | VNull => false | _ => true end.

(** The attempt numbers of the [Invoke] events of a trace. *)
Fixpoint invocations (tr : list retry_event) : list nat :=
  match tr with
  | [] => []
  | Invoke n :: tr' => n :: invocations tr'
  | Sleep _ :: tr' => invocations tr'
  end.

(** Case analysis on one iteration of [retry_loop]. *)
Ltac retry_step :=
  repeat match goal with
  | |- context [Z.of_nat ?a <=? ?m] => destruct (Z.leb_spec (Z.of_nat a) m)
  | |- context [Z.of_nat ?a <? ?m] => destruct (Z.ltb_spec (Z.of_nat a) m)
  | |- context [match ?o ?a with Resolved _ => _ | Rejected _ => _ end] =>
      destruct (o a) eqn:?
  | |- context [match get_message ?e with Normal _ => _ | Throw _ => _ end] =>
      destruct (get_message e) eqn:?
  | |- context [let '(_, _) := ?c in _] => destruct c eqn:?
  end.

Lemma retry_loop_past op maxAttempts fuel attempt lastError :
  maxAttempts < Z.of_nat attempt ->
  retry_loop op maxAttempts fuel attempt lastError = (Rejected lastError, []).
Proof.
  intros H. destruct fuel; simpl; [reflexivity|].
  destruct (Z.leb_spec (Z.of_nat attempt) maxAttempts); [lia|reflexivity].
Qed.


Lemma retry_loop_invokes_ge op maxAttempts fuel :
  forall attempt lastError n,
  In (Invoke n) (snd (retry_loop op maxAttempts fuel attempt lastError)) ->
  (attempt <= n)%nat.
Proof.
  induction fuel as [|fuel IH]; intros attempt lastError n Hin; simpl in Hin;
    [contradiction|].
  revert Hin. retry_step; simpl; intros Hin; try contradiction;
    repeat (destruct Hin as [Hin|Hin];
            [first [injection Hin as <-; lia | discriminate] |]);
    try contradiction;
    match goal with
    | E : retry_loop _ _ _ _ _ = (_, ?tr), H : In _ ?tr |- _ =>
        pose proof (IH _ _ _ ltac:(rewrite E; exact H)); lia
    end.
Qed.

(** C10: with [maxAttempts <= 0] the loop body never runs: [operation] is
    never invoked and the promise rejects with the initial [lastError],
    [undefined]. *)
Theorem retry_nonpositive_attempts (op : operation) (maxAttempts : Z)
    (Hmax : maxAttempts <= 0) :
  executeWithRetry op maxAttempts = (Rejected VUndefined, []).
Proof.
  unfold executeWithRetry. apply retry_loop_past. simpl. lia.
Qed.

Lemma retry_nonpositive_attempts_witness :
  0 <= 0 /\ executeWithRetry (fun _ => Resolved (VNum 1)) 0 = (Rejected VUndefined, []).
Proof. split; [lia | apply (retry_nonpositive_attempts _ 0); lia]. Defined.




Lemma retry_loop_all_fail (op : operation) (errs : nat -> value) (maxAttempts : Z)
    (Hop : forall n, op n = Rejected (errs n) /\ nonnullish (errs n) = true) :
  forall fuel attempt lastError,
  (Z.to_nat maxAttempts < attempt + fuel)%nat -> (1 <= attempt)%nat ->
  fst (retry_loop op maxAttempts fuel attempt lastError) =
    Rejected (if Z.of_nat attempt <=? maxAttempts
              then errs (Z.to_nat maxAttempts) else lastError) /\
  invocations (snd (retry_loop op maxAttempts fuel attempt lastError)) =
    seq attempt (S (Z.to_nat maxAttempts) - attempt).
Proof.
  induction fuel as [|fuel IH]; intros attempt lastError Hfuel H1.
  - simpl. destruct (Z.leb_spec (Z.of_nat attempt) maxAttempts); [lia|].
    split; [reflexivity|]. replace (S (Z.to_nat maxAttempts) - attempt)%nat with 0%nat
      by lia. reflexivity.
  - cbn [retry_loop].
    destruct (Z.leb_spec (Z.of_nat attempt) maxAttempts) as [Hle|Hgt].
    + destruct (Hop attempt) as [-> Hnn].
      destruct (get_message (errs attempt)) as [m|t] eqn:Hm;
        [|destruct (errs attempt); discriminate].
      destruct (Z.ltb_spec (Z.of_nat attempt) maxAttempts) as [Hlt|Hge].
      * destruct (IH (S attempt) (errs attempt) ltac:(lia) ltac:(lia)) as [Hr Hinv].
        destruct (retry_loop op maxAttempts fuel (S attempt) (errs attempt)) as [r tr].
        simpl in *. rewrite Hr, Hinv.
        destruct (Z.leb_spec (Z.of_nat (S attempt)) maxAttempts); [|lia].
        split; [reflexivity|].
        replace (S (Z.to_nat maxAttempts) - attempt)%nat
          with (S (S (Z.to_nat maxAttempts) - S attempt)) by lia.
        reflexivity.
      * rewrite retry_loop_past by lia. simpl.
        replace (Z.to_nat maxAttempts) with attempt by lia.
        split; [reflexivity|].
        replace (S attempt - attempt)%nat with 1%nat by lia. reflexivity.
    + simpl. split; [reflexivity|].
      replace (S (Z.to_nat maxAttempts) - attempt)%nat with 0%nat by lia.
      reflexivity.
Qed.

(** An operation whose every invocation rejects with a non-nullish value,
    run with [maxAttempts = N >= 1], is invoked for attempts [1..N] and the
    promise rejects with the [N]-th rejection value. *)
Lemma retry_always_fails_nonnullish (op : operation) (errs : nat -> value) (N : Z)
    (Hop : forall n, op n = Rejected (errs n) /\ nonnullish (errs n) = true)
    (HN : 1 <= N) :
  fst (executeWithRetry op N) = Rejected (errs (Z.to_nat N)) /\
  invocations (snd (executeWithRetry op N)) = seq 1 (Z.to_nat N).
Proof.
  unfold executeWithRetry.
  destruct (retry_loop_all_fail op errs N Hop (S (Z.to_nat N)) 1 VUndefined
              ltac:(lia) ltac:(lia)) as [Hr Hinv].
  rewrite Hr, Hinv.
  destruct (Z.leb_spec (Z.of_nat 1) N); [|lia].
  split; [reflexivity|]. f_equal. lia.
Qed.

(** Fails twice with non-nullish values, then succeeds: three invocations,
    two waits (1000 ms, 1500 ms), and the success value. *)
Lemma retry_fail_twice_nonnullish (e1 e2 v : value)
    (H1 : nonnullish e1 = true) (H2 : nonnullish e2 = true) :
  executeWithRetry
    (fun n => match n with 1%nat => Rejected e1 | 2%nat => Rejected e2
                         | _ => Resolved v end) 3 =
  (Resolved v, [Invoke 1; Sleep 1000; Invoke 2; Sleep 1500; Invoke 3]).
Proof.
  destruct e1; try discriminate; destruct e2; try discriminate;
    vm_compute; reflexivity.
Qed.

(** C2, failing input: an operation that always rejects with [undefined], run
    with [maxAttempts = 2], is invoked once only: reading [error.message]
    in the [catch] block throws a [TypeError], which rejects the promise
    instead of the last rejection value after two attempts. *)
Theorem retry_always_fail_undefined :
  executeWithRetry (fun _ => Rejected VUndefined) 2 =
    (Rejected property_type_error, [Invoke 1]).
Proof. vm_compute. reflexivity. Qed.

(** C3, failing input: an operation that rejects with [undefined] twice and then
    resolves, run with [maxAttempts = 3], is invoked once, waits zero times,
    and the promise rejects with the [TypeError] of [error.message]. *)
Theorem retry_fail_twice_undefined :
  executeWithRetry
    (fun n => if (n <=? 2)%nat then Rejected VUndefined else Resolved (VNum 42)) 3 =
    (Rejected property_type_error, [Invoke 1]).
Proof. vm_compute. reflexivity. Qed.

(* --------------------------------------------------------------------- *)
(* executeWithTimeout                                                    *)
(* --------------------------------------------------------------------- *)

Lemma getTimeout_finite_bounds (st : aps) (operation : string) (z : Z) :
  getTimeout st operation = Num z -> 96 <= z <= 135000.
Proof.
  unfold getTimeout.
  destruct (base_timeout_cases operation) as [[_ ->]|[_ (b & -> & Hb)]]; [discriminate|].
  intros Hz. injection Hz as <-.
  destruct (networkSpeed st), (deviceCapability st);
  repeat (apply elem_of_cons in Hb as [->|Hb]; [vm_compute; split; discriminate|]);
  apply elem_of_nil in Hb; contradiction.
Qed.

Lemma setTimeout_delay_small (z : Z) :
  0 <= z < 2 ^ 31 -> Z.of_nat (setTimeout_delay (Num z)) = z.
Proof.
  intros Hz. unfold setTimeout_delay, webidl_long.
  rewrite Z.mod_small by lia.
  destruct (Z.leb_spec (2 ^ 31) z); [lia|]. lia.
Qed.

(** C7: [executeWithTimeout] races [operation()] against a timer set with
    [setTimeout(..., getTimeout(operationName))]: an operation settling
    before the timer decides the result, a timer firing first (or an
    operation that never settles) rejects with the timeout error, and a
    synchronous throw of [operation()] rejects at once with that error. The
    timer waits [getTimeout(operationName)] ms when that is a number, and
    0 ms when it is NaN ([setTimeout] reads NaN as 0). *)
Theorem executeWithTimeout_race (st : aps) (p : promise) (operationName : string) :
  let T := getTimeout st operationName in
  let D := setTimeout_delay T in
  (forall t s, p = Some (t, s) -> (t < D)%nat ->
     executeWithTimeout st (CallReturns p) operationName = Some (t, s)) /\
  ((p = None \/ exists t s, p = Some (t, s) /\ (D < t)%nat) ->
     executeWithTimeout st (CallReturns p) operationName =
       Some (D, Rejected (timeout_error operationName T))) /\
  (forall e, executeWithTimeout st (CallThrows e) operationName =
     Some (0%nat, Rejected e)) /\
  (forall z, T = Num z -> Z.of_nat D = z) /\
  (T = NaN -> D = 0%nat).
Proof.
  intros T D. unfold executeWithTimeout. fold T. fold D.
  split; [|split; [|split; [|split]]].
  - intros t s -> Ht. simpl.
    destruct (Nat.leb_spec t D); [reflexivity|lia].
  - intros [-> | (t & s & -> & Ht)]; simpl; [reflexivity|].
    destruct (Nat.leb_spec t D); [lia|reflexivity].
  - reflexivity.
  - intros z Hz. subst D. rewrite Hz. apply setTimeout_delay_small.
    pose proof (getTimeout_finite_bounds st operationName z Hz). lia.
  - intros Hn. subst D. rewrite Hn. reflexivity.
Qed.

Definition st_default : aps :=
  {| networkSpeed := normal; deviceCapability := medium; performanceMetrics := [] |}.

Lemma executeWithTimeout_race_witness :
  executeWithTimeout st_default (CallReturns (Some (100%nat, Resolved (VNum 7))))
    "bookingsLoad" = Some (100%nat, Resolved (VNum 7)) /\
  executeWithTimeout st_default (CallReturns None) "bookingsLoad" =
    Some (Z.to_nat 15000, Rejected (timeout_error "bookingsLoad" (Num 15000))) /\
  executeWithTimeout st_default (CallReturns (Some (100%nat, Resolved (VNum 7))))
    "constructor" = Some (0%nat, Rejected (timeout_error "constructor" NaN)).
Proof.
  destruct (executeWithTimeout_race st_default (Some (100%nat, Resolved (VNum 7)))
              "bookingsLoad") as [Hfirst _].
  destruct (executeWithTimeout_race st_default None "bookingsLoad") as [_ [Hlate _]].
  destruct (executeWithTimeout_race st_default (Some (100%nat, Resolved (VNum 7)))
              "constructor") as [_ [Hnan _]].
  split; [|split].
  - apply Hfirst; [reflexivity | vm_compute; lia].
  - apply Hlate. left. reflexivity.
  - apply Hnan. right. exists 100%nat, (Resolved (VNum 7)).
    split; [reflexivity | vm_compute; lia].
Defined.

(* --------------------------------------------------------------------- *)
(* detectNetworkSpeed                                                    *)
(* --------------------------------------------------------------------- *)

(** The page-load-time buckets of the claim: > 3000 ms slow, > 1500 ms
    normal, otherwise fast. *)
Definition load_time_class (pageLoadTime : Z) : network_speed :=
  if 3000 <? pageLoadTime then slow
  else if 1500 <? pageLoadTime then normal
  else fast.

(** C4 (counterexample): with neither the connection API nor
    [performance.timing], the classification is not an estimate from any
    page load time: it keeps whatever value it had before. *)
Lemma detectNetworkSpeed_no_timing_not_estimated :
  networkSpeed (detectNetworkSpeed browser_none (set_network slow st_default)) = slow /\
  networkSpeed (detectNetworkSpeed browser_none (set_network fast st_default)) = fast /\
  ~ (exists pageLoadTime : Z, forall st : aps,
       networkSpeed (detectNetworkSpeed browser_none st) = load_time_class pageLoadTime).
Proof.
  split; [reflexivity|]. split; [reflexivity|].
  intros [t Ht].
  pose proof (Ht (set_network slow st_default)) as Hs.
  pose proof (Ht (set_network fast st_default)) as Hf.
  simpl in Hs, Hf. rewrite <- Hs in Hf. discriminate.
Qed.

(** C4 (amended): a connection object reporting "4g" gives fast and "2g"
    gives slow; without a connection object, when [performance.timing] is
    available the speed is the load-time bucket of
    [loadEventEnd - navigationStart], and when it is not available the
    state is left unchanged. *)
Theorem detectNetworkSpeed_spec (b : browser) (st : aps) :
  (forall c, connection_of b = Some c -> effectiveType c = Some "4g" ->
     networkSpeed (detectNetworkSpeed b st) = fast) /\
  (forall c, connection_of b = Some c -> effectiveType c = Some "2g" ->
     networkSpeed (detectNetworkSpeed b st) = slow) /\
  (connection_of b = None -> forall timing, perf_timing b = Some timing ->
     networkSpeed (detectNetworkSpeed b st) =
       load_time_class (loadEventEnd timing - navigationStart timing)) /\
  (connection_of b = None -> perf_timing b = None ->
     detectNetworkSpeed b st = st).
Proof.
  unfold detectNetworkSpeed. split; [|split; [|split]].
  - intros c -> ->. reflexivity.
  - intros c -> ->. reflexivity.
  - intros -> timing ->. unfold load_time_class.
    destruct (3000 <? _); [reflexivity|]. destruct (1500 <? _); reflexivity.
  - intros -> ->. reflexivity.
Qed.

Definition browser_4g : browser :=
  {| nav_connection := Some {| effectiveType := Some "4g"; downlink := None |};
     nav_mozConnection := None; nav_webkitConnection := None;
     perf_timing := None; hardwareConcurrency := Some 8; deviceMemory := Some 8%Q;
     isMobileUA := false |}.

Definition browser_timing (pageLoadTime : Z) : browser :=
  {| nav_connection := None; nav_mozConnection := None; nav_webkitConnection := None;
     perf_timing := Some {| navigationStart := 1000; loadEventEnd := 1000 + pageLoadTime |};
     hardwareConcurrency := None; deviceMemory := None; isMobileUA := false |}.

Lemma detectNetworkSpeed_spec_witness :
  networkSpeed (detectNetworkSpeed browser_4g st_default) = fast /\
  networkSpeed (detectNetworkSpeed (browser_timing 3500) st_default) = slow /\
  detectNetworkSpeed browser_none st_default = st_default.
Proof.
  destruct (detectNetworkSpeed_spec browser_4g st_default) as [H4 _].
  destruct (detectNetworkSpeed_spec (browser_timing 3500) st_default) as [_ [_ [Ht _]]].
  destruct (detectNetworkSpeed_spec browser_none st_default) as [_ [_ [_ Hn]]].
  split; [|split].
  - apply (H4 {| effectiveType := Some "4g"; downlink := None |}); reflexivity.
  - rewrite (Ht eq_refl {| navigationStart := 1000; loadEventEnd := 1000 + 3500 |} eq_refl).
    reflexivity.
  - apply Hn; reflexivity.
Defined.

(* --------------------------------------------------------------------- *)
(* ConsoleManager: the pattern scan                                       *)
(* --------------------------------------------------------------------- *)

Section Scan.
Variable key_of : string -> string.
Variable msg : string.

Lemma scan_mono (patterns : list string) (seen : gset string) :
  seen ⊆ snd (suppress_scan key_of msg patterns seen).
Proof.
  revert seen; induction patterns as [|p ps IH]; intros seen; simpl; [done|].
  destruct (includes msg p); [|apply IH].
  case_bool_decide; simpl; [done|].
  etransitivity; [|apply IH]. set_solver.
Qed.

Lemma scan_pass_iff (patterns : list string) (seen : gset string) :
  NoDup (map key_of patterns) ->
  fst (suppress_scan key_of msg patterns seen) = true <->
  (forall p, In p patterns -> includes msg p = true -> key_of p ∉ seen).
Proof.
  revert seen; induction patterns as [|p ps IH]; intros seen Hnd; simpl;
    [split; [intros _ p []| done]|].
  apply NoDup_cons in Hnd as [Hnotin Hnd].
  destruct (includes msg p) eqn:Hp.
  - case_bool_decide as Hk; simpl.
    + split; [discriminate|]. intros H. exfalso. exact (H p (or_introl eq_refl) Hp Hk).
    + rewrite IH by exact Hnd. split.
      * intros H q [<-|Hq] Hinc; [exact Hk|].
        specialize (H q Hq Hinc). set_solver.
      * intros H q Hq Hinc. apply not_elem_of_union. split; [|exact (H q (or_intror Hq) Hinc)].
        apply not_elem_of_singleton. intros Heq. apply Hnotin.
        rewrite <- Heq. apply list_elem_of_In, in_map, Hq.
  - rewrite IH by exact Hnd. split.
    + intros H q [<-|Hq] Hinc; [congruence|exact (H q Hq Hinc)].
    + intros H q Hq Hinc. exact (H q (or_intror Hq) Hinc).
Qed.

Lemma scan_first (patterns : list string) (seen seen2 : gset string) :
  (exists p, In p patterns /\ includes msg p = true) ->
  snd (suppress_scan key_of msg patterns seen) ⊆ seen2 ->
  fst (suppress_scan key_of msg patterns seen2) = false.
Proof.
  revert seen; induction patterns as [|p ps IH]; intros seen [q [Hq Hinc]] Hsub;
    simpl in *; [contradiction|].
  destruct (includes msg p) eqn:Hp.
  - assert (Hk : key_of p ∈ seen2).
    { case_bool_decide; simpl in Hsub; [set_solver|].
      pose proof (scan_mono ps ({[key_of p]} ∪ seen)). set_solver. }
    rewrite bool_decide_true by exact Hk. reflexivity.
  - destruct Hq as [<-|Hq]; [congruence|].
    apply (IH seen); [exists q; split; assumption | exact Hsub].
Qed.

Lemma scan_pass_records (patterns : list string) (seen : gset string) :
  fst (suppress_scan key_of msg patterns seen) = true ->
  forall p, In p patterns -> includes msg p = true ->
  key_of p ∈ snd (suppress_scan key_of msg patterns seen).
Proof.
  revert seen; induction patterns as [|p ps IH]; intros seen Hpass q Hq Hinc;
    simpl in *; [contradiction|].
  destruct (includes msg p) eqn:Hp.
  - case_bool_decide; simpl in *; [discriminate|].
    destruct Hq as [->|Hq]; [|exact (IH _ Hpass q Hq Hinc)].
    pose proof (scan_mono ps ({[key_of q]} ∪ seen)). set_solver.
  - destruct Hq as [<-|Hq]; [congruence|exact (IH _ Hpass q Hq Hinc)].
Qed.

Lemma scan_hit (patterns : list string) (seen : gset string) (p : string) :
  In p patterns -> includes msg p = true -> key_of p ∈ seen ->
  fst (suppress_scan key_of msg patterns seen) = false.
Proof.
  revert seen; induction patterns as [|q ps IH]; intros seen Hin Hinc Hk;
    simpl in *; [contradiction|].
  destruct (includes msg q) eqn:Hq.
  - case_bool_decide as Hq'; [reflexivity|].
    destruct Hin as [<-|Hin]; [contradiction|].
    apply IH; [exact Hin | exact Hinc | set_solver].
  - destruct Hin as [<-|Hin]; [congruence|].
    apply IH; assumption.
Qed.
End Scan.

(* --------------------------------------------------------------------- *)
(* ConsoleManager: runs of events                                         *)
(* --------------------------------------------------------------------- *)

(** Events that neither clear the recorded keys nor change the patterns. *)
Definition no_clear (ev : console_event) : bool :=
  match ev with CReset | CVerbose => false | _ => true end.

Inductive console_reachable : console_mgr -> Prop :=
| cm_reach_new : console_reachable cm_new
| cm_reach_step st ev :
    console_reachable st -> console_reachable (fst (console_step st ev)).

Lemma console_error_state st args :
  fst (console_error st args) =
    set_suppressed (snd (suppress_scan error_key (msg_of args)
                          (suppressPatterns st) (suppressedErrors st))) st /\
  snd (console_error st args) =
    (if fst (suppress_scan error_key (msg_of args)
               (suppressPatterns st) (suppressedErrors st))
     then [OError args] else []).
Proof.
  unfold console_error.
  destruct (suppress_scan error_key _ _ _) as [pass seen]. split; reflexivity.
Qed.

Lemma console_warn_state st args :
  fst (console_warn st args) =
    set_suppressed (snd (suppress_scan warn_key (msg_of args)
                          (suppressPatterns st) (suppressedErrors st))) st /\
  snd (console_warn st args) =
    (if fst (suppress_scan warn_key (msg_of args)
               (suppressPatterns st) (suppressedErrors st))
     then [OWarn args] else []).
Proof.
  unfold console_warn.
  destruct (suppress_scan warn_key _ _ _) as [pass seen]. split; reflexivity.
Qed.

Lemma console_step_no_clear st ev :
  no_clear ev = true ->
  suppressPatterns (fst (console_step st ev)) = suppressPatterns st /\
  suppressedErrors st ⊆ suppressedErrors (fst (console_step st ev)).
Proof.
  intros Hev. destruct ev; try discriminate; cbn [console_step fst].
  - rewrite (proj1 (console_error_state st args)). simpl.
    split; [reflexivity | apply scan_mono].
  - rewrite (proj1 (console_warn_state st args)). simpl.
    split; [reflexivity | apply scan_mono].
  - simpl. split; [reflexivity | done].
  - unfold enableDebugCategory. destruct (debugCategories st !! category);
      simpl; split; done.
Qed.

Lemma console_run_fst st ev evs :
  fst (console_run st (ev :: evs)) = fst (console_run (fst (console_step st ev)) evs).
Proof.
  simpl. destruct (console_step st ev) as [st1 out1]. simpl.
  destruct (console_run st1 evs) as [st2 out2]. reflexivity.
Qed.

Lemma console_run_snd st ev evs :
  snd (console_run st (ev :: evs)) =
    snd (console_step st ev) ++ snd (console_run (fst (console_step st ev)) evs).
Proof.
  simpl. destruct (console_step st ev) as [st1 out1]. simpl.
  destruct (console_run st1 evs) as [st2 out2]. reflexivity.
Qed.

Lemma console_run_no_clear st evs :
  Forall (fun ev => no_clear ev = true) evs ->
  suppressPatterns (fst (console_run st evs)) = suppressPatterns st /\
  suppressedErrors st ⊆ suppressedErrors (fst (console_run st evs)).
Proof.
  revert st; induction evs as [|ev evs IH]; intros st Hall; [simpl; split; done|].
  apply Forall_cons in Hall as [Hev Hall].
  rewrite console_run_fst.
  destruct (console_step_no_clear st ev Hev) as [Hp Hs].
  destruct (IH (fst (console_step st ev)) Hall) as [Hp' Hs'].
  split; [congruence | etransitivity; eassumption].
Qed.

Lemma console_reachable_patterns st :
  console_reachable st ->
  suppressPatterns st = initialPatterns \/ suppressPatterns st = [].
Proof.
  induction 1 as [|st ev _ IH]; [left; reflexivity|].
  destruct ev; cbn [console_step fst].
  - rewrite (proj1 (console_error_state st args)). exact IH.
  - rewrite (proj1 (console_warn_state st args)). exact IH.
  - exact IH.
  - right. reflexivity.
  - exact IH.
  - unfold enableDebugCategory. destruct (debugCategories st !! category); exact IH.
Qed.

Lemma initial_error_keys_nodup : NoDup (map error_key initialPatterns).
Proof. apply (bool_decide_unpack _). vm_compute. reflexivity. Qed.

(* --------------------------------------------------------------------- *)
(* ConsoleManager: console.error suppression                             *)
(* --------------------------------------------------------------------- *)

Definition noisy_first : string := "accelerometer blocked".
Definition noisy_second : string := "Error: accelerometer unavailable".

(** C5 (counterexample): keys are recorded per pattern, not per message.
    After "accelerometer blocked" has been logged, the first occurrence of
    "Error: accelerometer unavailable", a message containing "Error", is
    dropped. *)
Lemma console_error_first_occurrence_dropped :
  includes noisy_second "Error" = true /\
  includes noisy_second "accelerometer" = true /\
  snd (console_run cm_new [CError [Some noisy_first]; CError [Some noisy_second]]) =
    [OError [Some noisy_first]].
Proof. vm_compute. repeat split. Qed.

(** C5 (amended): in every reachable state, [console.error(...args)]
    reaches the original [console.error] with the same arguments exactly
    when no suppress pattern contained in the message has its key recorded,
    and is dropped otherwise; after a call with a message containing a
    pattern, a later call with the same message is dropped, and after a
    forwarded message containing pattern [p], every later message containing
    [p] is dropped, as long as no reset or verbose mode intervenes. *)
Theorem console_error_suppression (st : console_mgr) (Hreach : console_reachable st)
    (args : console_args) :
  (snd (console_error st args) = [OError args] \/ snd (console_error st args) = []) /\
  (snd (console_error st args) = [OError args] <->
     forall p, In p (suppressPatterns st) -> includes (msg_of args) p = true ->
       error_key p ∉ suppressedErrors st) /\
  (forall evs args',
     (exists p, In p (suppressPatterns st) /\ includes (msg_of args) p = true) ->
     Forall (fun ev => no_clear ev = true) evs ->
     msg_of args' = msg_of args ->
     snd (console_error (fst (console_run (fst (console_error st args)) evs)) args') = []) /\
  (forall evs args' p,
     snd (console_error st args) = [OError args] ->
     In p (suppressPatterns st) -> includes (msg_of args) p = true ->
     Forall (fun ev => no_clear ev = true) evs ->
     includes (msg_of args') p = true ->
     snd (console_error (fst (console_run (fst (console_error st args)) evs)) args') = []).
Proof.
  destruct (console_error_state st args) as [Hst Hout].
  assert (Hnd : NoDup (map error_key (suppressPatterns st))).
  { destruct (console_reachable_patterns st Hreach) as [-> | ->];
      [exact initial_error_keys_nodup | constructor]. }
  split; [|split; [|split]].
  - rewrite Hout.
    destruct (suppress_scan error_key (msg_of args) (suppressPatterns st)
                (suppressedErrors st)) as [[|] seen]; [left|right]; reflexivity.
  - rewrite Hout, <- (scan_pass_iff error_key (msg_of args) _ (suppressedErrors st) Hnd).
    destruct (suppress_scan error_key (msg_of args) (suppressPatterns st)
                (suppressedErrors st)) as [[|] seen]; simpl; split; congruence.
  - intros evs args' Hex Hall Hmsg.
    set (st1 := fst (console_error st args)).
    assert (Hp1 : suppressPatterns st1 = suppressPatterns st)
      by (unfold st1; rewrite Hst; reflexivity).
    assert (Hs1 : snd (suppress_scan error_key (msg_of args) (suppressPatterns st)
                         (suppressedErrors st)) ⊆ suppressedErrors st1)
      by (unfold st1; rewrite Hst; done).
    destruct (console_run_no_clear st1 evs Hall) as [Hp Hs].
    rewrite (proj2 (console_error_state _ args')), Hmsg, Hp, Hp1.
    erewrite scan_first; [reflexivity | exact Hex | etransitivity; eassumption].
  - intros evs args' p Hfw Hin Hinc Hall Hinc'.
    assert (Hpass : fst (suppress_scan error_key (msg_of args) (suppressPatterns st)
                          (suppressedErrors st)) = true).
    { rewrite Hout in Hfw.
      destruct (suppress_scan error_key (msg_of args) (suppressPatterns st)
                  (suppressedErrors st)) as [[|] seen]; [reflexivity | discriminate]. }
    pose proof (scan_pass_records error_key (msg_of args) _ _ Hpass p Hin Hinc) as Hk.
    set (st1 := fst (console_error st args)).
    assert (Hp1 : suppressPatterns st1 = suppressPatterns st)
      by (unfold st1; rewrite Hst; reflexivity).
    assert (Hk1 : error_key p ∈ suppressedErrors st1)
      by (unfold st1; rewrite Hst; exact Hk).
    destruct (console_run_no_clear st1 evs Hall) as [Hp Hs].
    rewrite (proj2 (console_error_state _ args')), Hp, Hp1.
    erewrite scan_hit; [reflexivity | exact Hin | exact Hinc' | exact (Hs _ Hk1)].
Qed.

Lemma console_error_suppression_witness :
  snd (console_error cm_new [Some noisy_first]) = [OError [Some noisy_first]] /\
  snd (console_error (fst (console_run (fst (console_error cm_new [Some noisy_first]))
                                       [CProduction]))
                     [Some noisy_second]) = [].
Proof.
  destruct (console_error_suppression cm_new cm_reach_new [Some noisy_first])
    as [_ [_ [_ Hlater]]].
  assert (Hfw : snd (console_error cm_new [Some noisy_first]) = [OError [Some noisy_first]]).
  { vm_compute. reflexivity. }
  split; [exact Hfw|].
  apply (Hlater [CProduction] [Some noisy_second] "accelerometer" Hfw).
  - vm_compute. repeat (first [left; reflexivity | right]).
  - vm_compute. reflexivity.
  - repeat constructor.
  - vm_compute. reflexivity.
Defined.

(* --------------------------------------------------------------------- *)
(* ConsoleManager: verbose mode                                           *)
(* --------------------------------------------------------------------- *)

(** What an unfiltered console would forward for an event. *)
Definition forward_all (ev : console_event) : list console_out :=
  match ev with
  | CError args => [OError args]
  | CWarn args => [OWarn args]
  | _ => []
  end.

Lemma console_run_no_patterns st evs :
  suppressPatterns st = [] ->
  snd (console_run st evs) = concat (map forward_all evs).
Proof.
  revert st; induction evs as [|ev evs IH]; intros st Hnil; [reflexivity|].
  rewrite console_run_snd. cbn [map concat].
  assert (Hstep : suppressPatterns (fst (console_step st ev)) = [] /\
                  snd (console_step st ev) = forward_all ev).
  { destruct ev; cbn [console_step fst snd forward_all].
    - destruct (console_error_state st args) as [H1 H2].
      rewrite H1, H2; simpl; rewrite Hnil; split; reflexivity.
    - destruct (console_warn_state st args) as [H1 H2].
      rewrite H1, H2; simpl; rewrite Hnil; split; reflexivity.
    - split; [exact Hnil | reflexivity].
    - split; reflexivity.
    - split; [exact Hnil | reflexivity].
    - unfold enableDebugCategory.
      destruct (debugCategories st !! category); split; first [exact Hnil | reflexivity]. }
  destruct Hstep as [Hp Ho]. rewrite Ho, (IH _ Hp). reflexivity.
Qed.

(** C6 (counterexample): filtering is not re-established by
    [enableProductionMode] or [reset]: after verbose mode, then production
    mode, then a reset, a repeated noisy error is forwarded both times. *)
Lemma verbose_filtering_not_reestablished :
  snd (console_run cm_new
         [CVerbose; CProduction; CReset;
          CError [Some noisy_first]; CError [Some noisy_first]]) =
    [OError [Some noisy_first]; OError [Some noisy_first]].
Proof. vm_compute. reflexivity. Qed.

(** C6 (amended): [enableVerboseMode] empties the recorded keys and the
    pattern list, and from then on every [console.error] and
    [console.warn] call is forwarded unchanged, whatever follows
    (production mode, reset and debug toggles included). *)
Theorem verbose_disables_filtering (st : console_mgr) (evs : list console_event) :
  suppressedErrors (enableVerboseMode st) = ∅ /\
  suppressPatterns (enableVerboseMode st) = [] /\
  snd (console_run (enableVerboseMode st) evs) = concat (map forward_all evs).
Proof.
  split; [reflexivity|]. split; [reflexivity|].
  apply console_run_no_patterns. reflexivity.
Qed.

(* ===================================================================== *)
(* Further properties of the code                                        *)
(* ===================================================================== *)

(* --------------------------------------------------------------------- *)
(* getTimeout: range, and effect of memory pressure                      *)
(* --------------------------------------------------------------------- *)

(** Closes a goal about [getTimeout] for each possible base timeout. *)
Ltac timeout_cases b Hb :=
  repeat (apply elem_of_cons in Hb as [->|Hb];
          [repeat split; vm_compute; first [discriminate | reflexivity]|]);
  apply elem_of_nil in Hb; contradiction.

(** [getTimeout] is NaN exactly for the names found on [Object.prototype].
    For every other name it is a finite integer equal to the exact product
    of the base timeout and the two multipliers (the rounding never
    changes it), between 0.64 and 3 times the base timeout and never below
    96 ms, whatever the network and device classification. *)
Theorem getTimeout_range (st : aps) (operation : string) :
  (In operation object_prototype_members /\ getTimeout st operation = NaN) \/
  (~ In operation object_prototype_members /\
   exists b z, base_timeout operation = BNum b /\ getTimeout st operation = Num z /\
     (inject_Z z == inject_Z b * networkMultiplier (networkSpeed st)
                    * deviceMultiplier (deviceCapability st))%Q /\
     64 * b <= 100 * z <= 300 * b /\ 96 <= z).
Proof.
  destruct (base_timeout_cases operation) as [[Hin Hb]|[Hnin (b & Hb & Hbl)]].
  - left. split; [exact Hin|]. unfold getTimeout. rewrite Hb. reflexivity.
  - right. split; [exact Hnin|]. unfold getTimeout. rewrite Hb.
    eexists b, _. split; [reflexivity|]. split; [reflexivity|].
    destruct (networkSpeed st), (deviceCapability st); timeout_cases b Hbl.
Qed.

(** [b] is a timeout at least as long as [a]: both finite with [a <= b],
    or both NaN. *)
Definition not_shorter (a b : number) : Prop :=
  match a, b with
  | Num x, Num y => x <= y
  | NaN, NaN => True
  | _, _ => False
  end.

(** A memory-usage tick above 90% downgrades the device to low, which
    never shortens a timeout, and leaves the network speed and the metrics
    untouched. *)
Theorem memory_pressure_timeout (b : browser) (usage : Q) (st : aps)
    (operation : string) (Hhigh : (9 # 10 < usage)%Q) :
  deviceCapability (memory_tick b usage st) = low /\
  networkSpeed (memory_tick b usage st) = networkSpeed st /\
  performanceMetrics (memory_tick b usage st) = performanceMetrics st /\
  not_shorter (getTimeout st operation) (getTimeout (memory_tick b usage st) operation).
Proof.
  unfold memory_tick, Qlt_bool.
  assert (Hle : Qle_bool usage (9 # 10) = false).
  { destruct (Qle_bool usage (9 # 10)) eqn:E; [|reflexivity].
    apply Qle_bool_iff in E. exfalso. apply (Qlt_not_le _ _ Hhigh E). }
  rewrite Hle. simpl. split; [reflexivity|]. split; [reflexivity|].
  split; [reflexivity|].
  unfold getTimeout. simpl.
  destruct (base_timeout_cases operation) as [[_ Hb]|[_ (bt & Hb & Hbl)]];
    rewrite Hb; [exact I|].
  destruct (networkSpeed st), (deviceCapability st); timeout_cases bt Hbl.
Qed.

Lemma memory_pressure_timeout_witness :
  (9 # 10 < 95 # 100)%Q /\
  not_shorter (getTimeout st_default "bookingsLoad")
    (getTimeout (memory_tick browser_none (95 # 100) st_default) "bookingsLoad").
Proof.
  assert (H : (9 # 10 < 95 # 100)%Q) by (vm_compute; reflexivity).
  split; [exact H|].
  exact (proj2 (proj2 (proj2 (memory_pressure_timeout browser_none _ st_default
                                "bookingsLoad" H)))).
Defined.

(* --------------------------------------------------------------------- *)
(* reset                                                                 *)
(* --------------------------------------------------------------------- *)

(** [reset()] empties the metrics and re-detects the device as a new
    instance would; the network speed is re-detected too, except that when
    the browser offers neither a connection object nor
    [performance.timing] the previous speed is kept (a new instance would
    start from normal). *)
Theorem aps_reset_redetects (b : browser) (st : aps) :
  performanceMetrics (aps_reset b st) = [] /\
  deviceCapability (aps_reset b st) = deviceCapability (aps_new b) /\
  (connection_of b = None -> perf_timing b = None ->
     networkSpeed (aps_reset b st) = networkSpeed st) /\
  (connection_of b = None -> perf_timing b <> None ->
     aps_reset b st = aps_new b).
Proof.
  unfold aps_reset, aps_new, aps_init. split; [|split; [|split]].
  - rewrite detectDeviceCapability_metrics, detectNetworkSpeed_metrics. reflexivity.
  - unfold detectDeviceCapability. repeat case_match; reflexivity.
  - intros Hc Ht. unfold detectDeviceCapability, detectNetworkSpeed.
    rewrite Hc, Ht. repeat case_match; reflexivity.
  - intros Hc Ht. destruct (perf_timing b) as [t|] eqn:Et; [|congruence].
    unfold detectNetworkSpeed. rewrite Hc, Et. repeat case_match; reflexivity.
Qed.

Lemma aps_reset_redetects_witness :
  networkSpeed (aps_reset browser_none (set_network slow st_default)) = slow /\
  aps_reset (browser_timing 2000) (set_network slow st_default) =
    aps_new (browser_timing 2000).
Proof.
  destruct (aps_reset_redetects browser_none (set_network slow st_default))
    as [_ [_ [Hn _]]].
  destruct (aps_reset_redetects (browser_timing 2000) (set_network slow st_default))
    as [_ [_ [_ Ht]]].
  split; [apply Hn; reflexivity | apply Ht; [reflexivity | discriminate]].
Defined.

(* --------------------------------------------------------------------- *)
(* recordMetric: the history is a sliding window                         *)
(* --------------------------------------------------------------------- *)

(** The last [n] elements of a list. *)
Definition lastn {A} (n : nat) (l : list A) : list A := drop (length l - n) l.

(** Recording metrics one after the other ([PerformanceObserver] callback). *)
Definition record_all (ms : list metric) (st : aps) : aps :=
  fold_left (fun s m => recordMetric m s) ms st.

Lemma lastn_cons {A} (n : nat) (x : A) (l : list A) :
  (n <= length l)%nat -> lastn n (x :: l) = lastn n l.
Proof.
  intros H. unfold lastn. simpl.
  replace (S (length l) - n)%nat with (S (length l - n)) by lia. reflexivity.
Qed.

(** Starting from a history within the bound, recording any sequence of
    metrics leaves exactly the last 100 of all metrics (old history, then
    the new ones in order). *)
Theorem record_all_window (ms : list metric) (st : aps)
    (Hb : (length (performanceMetrics st) <= 100)%nat) :
  performanceMetrics (record_all ms st) = lastn 100 (performanceMetrics st ++ ms).
Proof.
  revert st Hb; induction ms as [|m ms IH]; intros st Hb; simpl.
  - rewrite app_nil_r. unfold lastn. replace (length _ - 100)%nat with 0%nat by lia.
    reflexivity.
  - rewrite IH.
    2: { apply (aps_step_metrics_bound st (OpRecordMetric m)). exact Hb. }
    rewrite (recordMetric_metrics m st Hb).
    destruct (Nat.ltb_spec (length (performanceMetrics st)) maxMetricsHistory) as [Hlt|Hge].
    + rewrite <- app_assoc. reflexivity.
    + unfold maxMetricsHistory in Hge.
      destruct (performanceMetrics st) as [|x h] eqn:E; simpl in *; [lia|].
      rewrite <- app_assoc. simpl.
      rewrite (lastn_cons 100 x (h ++ m :: ms)); [reflexivity|].
      rewrite length_app. simpl. lia.
Qed.

Lemma record_all_window_witness :
  (length (performanceMetrics (history_after 100)) <= 100)%nat /\
  map m_timestamp (performanceMetrics
    (record_all [sample_metric 100; sample_metric 101] (history_after 100))) =
    map Z.of_nat (seq 2 100).
Proof.
  assert (H : (length (performanceMetrics (history_after 100)) <= 100)%nat)
    by (apply Nat.leb_le; vm_compute; reflexivity).
  split; [exact H|].
  rewrite (record_all_window [sample_metric 100; sample_metric 101] (history_after 100) H).
  vm_compute. reflexivity.
Defined.

(* --------------------------------------------------------------------- *)
(* executeWithTimeout always settles by the timeout                      *)
(* --------------------------------------------------------------------- *)

(** Whatever the operation does (even never settling), the promise of
    [executeWithTimeout] settles, at the latest when its timer fires: after
    [getTimeout(operationName)] ms, or at once when that is NaN. *)
Theorem executeWithTimeout_settles (st : aps) (call : call_result) (operationName : string) :
  exists t s, executeWithTimeout st call operationName = Some (t, s) /\
    (t <= setTimeout_delay (getTimeout st operationName))%nat /\
    (forall z, getTimeout st operationName = Num z -> Z.of_nat t <= z) /\
    (getTimeout st operationName = NaN -> t = 0%nat).
Proof.
  assert (Hd : forall t, (t <= setTimeout_delay (getTimeout st operationName))%nat ->
    (forall z, getTimeout st operationName = Num z -> Z.of_nat t <= z) /\
    (getTimeout st operationName = NaN -> t = 0%nat)).
  { intros t Ht. split.
    - intros z Hz. rewrite Hz in Ht.
      pose proof (getTimeout_finite_bounds st operationName z Hz).
      pose proof (setTimeout_delay_small z ltac:(lia)). lia.
    - intros Hn. rewrite Hn in Ht. simpl in Ht. lia. }
  unfold executeWithTimeout. destruct call as [e|[[t s]|]].
  - exists 0%nat, (Rejected e). split; [reflexivity|].
    split; [lia | apply Hd; lia].
  - simpl. destruct (Nat.leb_spec t (setTimeout_delay (getTimeout st operationName))).
    + exists t, s. split; [reflexivity|]. split; [lia | apply Hd; lia].
    + eexists _, _. split; [reflexivity|]. split; [lia | apply Hd; lia].
  - eexists _, _. split; [reflexivity|]. split; [lia | apply Hd; lia].
Qed.

(* --------------------------------------------------------------------- *)
(* ConsoleManager: the console.log override (setupProductionLogging)     *)
(* --------------------------------------------------------------------- *)

(** Lower case of an ASCII letter (other bytes are kept). *)
Definition lower_ascii (c : ascii) : ascii :=
  let n := nat_of_ascii c in
  if (65 <=? n)%nat && (n <=? 90)%nat then ascii_of_nat (n + 32) else c.

(** [toLowerCase()] on UTF-8 text, as far as its ASCII content goes: the
    ASCII letters, U+212A KELVIN SIGN (lower case "k") and U+0130 (lower
    case "i" followed by U+0307) are mapped; these two are the only
    non-ASCII characters whose lower case contains ASCII. Every other
    character is kept: its lower case contains no ASCII either, so the
    [includes] tests with ASCII needles that read the result (the only use
    of it) give the answers of the full Unicode mapping. *)
Fixpoint toLowerCase (s : string) : string :=
  match s with
  | EmptyString => EmptyString
  | String "226" (String "132" (String "170" rest)) => String "k" (toLowerCase rest)
  | String "196" (String "176" rest) =>
      String "i" (String "204" (String "135" (toLowerCase rest)))
  | String c rest => String (lower_ascii c) (toLowerCase rest)
  end.

(** The characters before the first [']'], if there is one. *)
Fixpoint until_close (s : string) : option string :=
  match s with
  | EmptyString => None
  | String c rest =>
      if Ascii.eqb c "]" then Some EmptyString
      else option_map (String c) (until_close rest)
  end.

(** [msg.match(/\[([^\]]+)\]/)?.[1]]: the leftmost ['['] followed by at
    least one non-[']'] character and a [']']. *)
Fixpoint bracket_capture (s : string) : option string :=
  match s with
  | EmptyString => None
  | String c rest =>
      if Ascii.eqb c "[" then
        match until_close rest with
        | Some EmptyString => bracket_capture rest
        | Some inner => Some inner
        | None => None
        end
      else bracket_capture rest
  end.

(** [self.debugCategories[name]], [undefined] read as false. *)
Definition category_flag (st : console_mgr) (name : string) : bool :=
  match debugCategories st !! name with Some b => b | None => false end.

Definition important_markers : list string :=
  ["✅"; "🚨"; "❌"; "Error"; "error"; "Success"; "success"].

Definition filtered_categories : list string := ["booking"; "auth"; "firebase"; "ui"].

(** The [console.log] override: [true] when the call reaches the original
    [console.log] (with the same arguments). The four category tests are
    done in the order of the source. *)
Definition console_log (st : console_mgr) (args : console_args) : bool :=
  let msg := msg_of args in
  if existsb (includes msg) important_markers then true
  else if productionMode st && negb (category_flag st "all") then
    if String.prefix "[" msg && includes msg "]" then
      let category := match bracket_capture msg with
                      | Some c => toLowerCase c | None => "" end in
      if includes category "booking" && negb (category_flag st "booking") then false
      else if includes category "auth" && negb (category_flag st "auth") then false
      else if includes category "firebase" && negb (category_flag st "firebase") then false
      else if includes category "ui" && negb (category_flag st "ui") then false
      else true
    else true
  else true.

Definition log_category (msg : string) : string :=
  match bracket_capture msg with Some c => toLowerCase c | None => "" end.

Example console_log_ex :
  console_log cm_new [Some "[Booking] slots loaded"] = false /\
  console_log cm_new [Some "[AdaptivePerformance] Initializing..."] = true /\
  console_log cm_new [Some "[Auth] Error: token"] = true /\
  console_log cm_new [Some "[] [UI] x"] = false.
Proof. vm_compute. repeat split. Qed.

Example console_log_unicode_ex :
  log_category "[BOOKING] x" = "booking" /\
  console_log cm_new [Some "[BOOKING] x"] = false /\
  console_log cm_new [Some "[Uİ] x"] = false /\
  console_log cm_new [Some "[BÖÖKING] x"] = true.
Proof. vm_compute. repeat split. Qed.

(** [console.log] drops a call only in production mode without debug
    "all", for a message that starts with ['['], contains none of the
    always-shown markers, and whose bracketed tag (lower-cased) contains one
    of booking, auth, firebase, ui whose debug flag is off. Every other call
    reaches the original [console.log]. *)
Theorem console_log_drops_only_tagged (st : console_mgr) (args : console_args) :
  console_log st args = false ->
  existsb (includes (msg_of args)) important_markers = false /\
  productionMode st = true /\ category_flag st "all" = false /\
  String.prefix "[" (msg_of args) = true /\
  exists name, In name filtered_categories /\
    includes (log_category (msg_of args)) name = true /\ category_flag st name = false.
Proof.
  unfold console_log, log_category.
  destruct (existsb _ _); [discriminate|].
  destruct (productionMode st); [|discriminate].
  destruct (category_flag st "all"); [discriminate|].
  destruct (String.prefix "[" (msg_of args)); [|discriminate].
  destruct (includes (msg_of args) "]"); [|discriminate]. cbn.
  set (c := match bracket_capture (msg_of args) with
            | Some c => toLowerCase c | None => "" end).
  intros H. repeat split.
  destruct (includes c "booking") eqn:E1, (category_flag st "booking") eqn:F1;
    simpl in H; try (exists "booking"; split; [left; reflexivity | auto]; fail).
  all: destruct (includes c "auth") eqn:E2, (category_flag st "auth") eqn:F2;
    simpl in H; try (exists "auth"; split; [right; left; reflexivity | auto]; fail).
  all: destruct (includes c "firebase") eqn:E3, (category_flag st "firebase") eqn:F3;
    simpl in H; try (exists "firebase"; split; [right; right; left; reflexivity | auto]; fail).
  all: destruct (includes c "ui") eqn:E4, (category_flag st "ui") eqn:F4;
    simpl in H; try discriminate;
    exists "ui"; split; [right; right; right; left; reflexivity | auto].
Qed.

Definition tagged_booking (rest : string) : string := "[Booking]" +:+ rest.

(** A "[Booking] ..." log line without markers is hidden by a new console
    manager, shown after [debugBooking()] or [enableVerboseLogging()], and
    hidden again by [enableProductionLogging()] after verbose mode; the
    booking flag, once set, survives [enableProductionLogging()]. *)
Theorem console_log_booking_toggles (rest : string)
    (Hquiet : existsb (includes (tagged_booking rest)) important_markers = false) :
  console_log cm_new [Some (tagged_booking rest)] = false /\
  console_log (fst (console_run cm_new [CDebug "booking"])) [Some (tagged_booking rest)] = true /\
  console_log (fst (console_run cm_new [CVerbose])) [Some (tagged_booking rest)] = true /\
  console_log (fst (console_run cm_new [CVerbose; CProduction])) [Some (tagged_booking rest)] = false /\
  console_log (fst (console_run cm_new [CDebug "booking"; CVerbose; CProduction]))
    [Some (tagged_booking rest)] = true.
Proof.
  unfold console_log. cbn [msg_of]. rewrite Hquiet.
  assert (Hcap : bracket_capture (tagged_booking rest) = Some "Booking") by reflexivity.
  assert (Hpre : String.prefix "[" (tagged_booking rest) = true) by reflexivity.
  assert (Hcl : includes (tagged_booking rest) "]" = true) by (destruct rest; reflexivity).
  rewrite Hcap, Hpre, Hcl. vm_compute. repeat split.
Qed.

Lemma console_log_booking_toggles_witness :
  existsb (includes (tagged_booking " slots loaded")) important_markers = false /\
  console_log cm_new [Some (tagged_booking " slots loaded")] = false.
Proof.
  assert (H : existsb (includes (tagged_booking " slots loaded")) important_markers = false)
    by (vm_compute; reflexivity).
  split; [exact H | exact (proj1 (console_log_booking_toggles _ H))].
Defined.

(* --------------------------------------------------------------------- *)
(* ConsoleManager: recorded keys                                          *)
(* --------------------------------------------------------------------- *)

(** [getErrorStats()] *)
Definition getErrorStats (st : console_mgr) : nat := size (suppressedErrors st).

Lemma scan_adds (key_of : string -> string) (msg : string) (patterns : list string)
    (seen : gset string) :
  snd (suppress_scan key_of msg patterns seen) ⊆ seen ∪ list_to_set (map key_of patterns).
Proof.
  revert seen; induction patterns as [|p ps IH]; intros seen; simpl; [set_solver|].
  destruct (includes msg p); [|specialize (IH seen); set_solver].
  case_bool_decide; simpl; [set_solver|].
  specialize (IH ({[key_of p]} ∪ seen)). set_solver.
Qed.

Definition all_keys : gset string :=
  list_to_set (map error_key initialPatterns ++ map warn_key initialPatterns).

Lemma pattern_keys_sub st :
  console_reachable st ->
  list_to_set (map error_key (suppressPatterns st)) ∪
  list_to_set (map warn_key (suppressPatterns st)) ⊆ all_keys.
Proof.
  intros Hr. unfold all_keys. rewrite list_to_set_app_L.
  destruct (console_reachable_patterns st Hr) as [-> | ->]; [reflexivity|].
  simpl. apply union_subseteq; split; apply empty_subseteq.
Qed.

Lemma console_reachable_keys st :
  console_reachable st -> suppressedErrors st ⊆ all_keys.
Proof.
  intros Hr. induction Hr as [|st ev Hr IH]; [apply empty_subseteq|].
  pose proof (pattern_keys_sub st Hr) as Hp.
  destruct ev; cbn [console_step fst].
  - rewrite (proj1 (console_error_state st args)). cbn [suppressedErrors set_suppressed].
    etransitivity; [apply scan_adds|].
    apply union_subseteq; split; [exact IH|].
    etransitivity; [|exact Hp]. apply union_subseteq_l.
  - rewrite (proj1 (console_warn_state st args)). cbn [suppressedErrors set_suppressed].
    etransitivity; [apply scan_adds|].
    apply union_subseteq; split; [exact IH|].
    etransitivity; [|exact Hp]. apply union_subseteq_r.
  - apply empty_subseteq.
  - apply empty_subseteq.
  - exact IH.
  - unfold enableDebugCategory. destruct (debugCategories st !! category); exact IH.
Qed.
(** [getErrorStats().suppressedCount] never exceeds 24: one key per
    suppress pattern for [console.error] and one for [console.warn]. *)
Theorem getErrorStats_bound (st : console_mgr) (Hreach : console_reachable st) :
  (getErrorStats st <= 24)%nat.
Proof.
  unfold getErrorStats.
  transitivity (size all_keys); [apply subseteq_size, console_reachable_keys, Hreach|].
  vm_compute. lia.
Qed.

Lemma getErrorStats_bound_witness :
  (getErrorStats (fst (console_run cm_new [CError [Some noisy_first]])) <= 24)%nat.
Proof.
  apply getErrorStats_bound. change (console_reachable (fst (console_step cm_new
    (CError [Some noisy_first])))). constructor. constructor.
Defined.

Lemma scan_same_keys (key_of : string -> string) (msg : string) (patterns : list string) :
  forall (s1 s2 : gset string),
  (forall p, In p patterns -> key_of p ∈ s1 <-> key_of p ∈ s2) ->
  fst (suppress_scan key_of msg patterns s1) = fst (suppress_scan key_of msg patterns s2).
Proof.
  induction patterns as [|p ps IH]; intros s1 s2 H; simpl; [reflexivity|].
  destruct (includes msg p).
  - rewrite (bool_decide_ext _ _ (H p (or_introl eq_refl))).
    case_bool_decide; [reflexivity|].
    apply IH. intros q Hq. specialize (H q (or_intror Hq)). set_solver.
  - apply IH. intros q Hq. exact (H q (or_intror Hq)).
Qed.

Lemma warn_error_keys_disjoint :
  Forall (fun p => Forall (fun q => warn_key p <> error_key q) initialPatterns) initialPatterns.
Proof. apply (bool_decide_unpack _). vm_compute. reflexivity. Qed.

(** [console.error] and [console.warn] suppress independently: a
    [console.error] call never changes whether a following [console.warn]
    call is shown, and a [console.warn] call never changes whether a
    following [console.error] call is shown. *)
Theorem error_warn_independent (st : console_mgr) (Hreach : console_reachable st)
    (args1 args2 : console_args) :
  snd (console_warn (fst (console_error st args1)) args2) = snd (console_warn st args2) /\
  snd (console_error (fst (console_warn st args1)) args2) = snd (console_error st args2).
Proof.
  pose proof warn_error_keys_disjoint as Hdis. rewrite Forall_forall in Hdis.
  destruct (console_reachable_patterns st Hreach) as [Hp|Hp].
  2: { rewrite (proj1 (console_error_state st args1)), (proj1 (console_warn_state st args1)).
       rewrite (proj2 (console_warn_state _ args2)), (proj2 (console_error_state _ args2)).
       rewrite (proj2 (console_warn_state st args2)), (proj2 (console_error_state st args2)).
       simpl. rewrite Hp. split; reflexivity. }
  split.
  - rewrite (proj1 (console_error_state st args1)), (proj2 (console_warn_state _ args2)),
      (proj2 (console_warn_state st args2)). simpl.
    erewrite scan_same_keys; [reflexivity|].
    intros p Hin. pose proof (scan_mono error_key (msg_of args1) (suppressPatterns st)
                                (suppressedErrors st)) as Hm.
    pose proof (scan_adds error_key (msg_of args1) (suppressPatterns st)
                  (suppressedErrors st)) as Ha.
    split; [|set_solver].
    intros Hk. apply Ha in Hk. apply elem_of_union in Hk as [Hk|Hk]; [exact Hk|].
    exfalso. apply elem_of_list_to_set, list_elem_of_In, in_map_iff in Hk as (q & Hq & Hqin).
    rewrite Hp in Hin, Hqin. apply list_elem_of_In in Hin.
    specialize (Hdis p Hin). rewrite Forall_forall in Hdis.
    apply (Hdis q); [apply list_elem_of_In; exact Hqin | symmetry; exact Hq].
  - rewrite (proj1 (console_warn_state st args1)), (proj2 (console_error_state _ args2)),
      (proj2 (console_error_state st args2)). simpl.
    erewrite scan_same_keys; [reflexivity|].
    intros p Hin. pose proof (scan_mono warn_key (msg_of args1) (suppressPatterns st)
                                (suppressedErrors st)) as Hm.
    pose proof (scan_adds warn_key (msg_of args1) (suppressPatterns st)
                  (suppressedErrors st)) as Ha.
    split; [|set_solver].
    intros Hk. apply Ha in Hk. apply elem_of_union in Hk as [Hk|Hk]; [exact Hk|].
    exfalso. apply elem_of_list_to_set, list_elem_of_In, in_map_iff in Hk as (q & Hq & Hqin).
    rewrite Hp in Hin, Hqin. apply list_elem_of_In in Hqin.
    specialize (Hdis q Hqin). rewrite Forall_forall in Hdis.
    apply (Hdis p); [apply list_elem_of_In; exact Hin | exact Hq].
Qed.

Lemma error_warn_independent_witness :
  snd (console_warn (fst (console_error cm_new [Some noisy_first])) [Some noisy_first]) =
    [OWarn [Some noisy_first]].
Proof.
  rewrite (proj1 (error_warn_independent cm_new cm_reach_new [Some noisy_first]
                    [Some noisy_first])).
  vm_compute. reflexivity.
Defined.

(* --------------------------------------------------------------------- *)
(* ConsoleManager: debug categories                                       *)
(* --------------------------------------------------------------------- *)

Definition category_names : list string := ["booking"; "auth"; "firebase"; "ui"; "all"].

Lemma console_reachable_categories st :
  console_reachable st ->
  forall c, is_Some (debugCategories st !! c) <-> is_Some (initialCategories !! c).
Proof.
  induction 1 as [|st ev Hr IH]; intros c; [reflexivity|].
  destruct ev; cbn [console_step fst].
  - rewrite (proj1 (console_error_state st args)). exact (IH c).
  - rewrite (proj1 (console_warn_state st args)). exact (IH c).
  - exact (IH c).
  - cbn [enableVerboseMode debugCategories]. rewrite lookup_insert_is_Some', <- IH.
    assert (Hall : is_Some (debugCategories st !! "all")) by (apply IH; vm_compute; eauto).
    split; [intros [<-|H]; [exact Hall|exact H] | intros H; right; exact H].
  - cbn [enableProductionMode debugCategories]. rewrite lookup_insert_is_Some', <- IH.
    assert (Hall : is_Some (debugCategories st !! "all")) by (apply IH; vm_compute; eauto).
    split; [intros [<-|H]; [exact Hall|exact H] | intros H; right; exact H].
  - unfold enableDebugCategory. destruct (debugCategories st !! category) eqn:Hc;
      [|exact (IH c)].
    cbn [debugCategories]. rewrite lookup_insert_is_Some', <- IH.
    split; [intros [<-|H]; [rewrite Hc; eauto|exact H] | intros H; right; exact H].
Qed.

Lemma initialCategories_is_Some c :
  is_Some (initialCategories !! c) <-> In c category_names.
Proof.
  rewrite <- elem_of_dom, <- list_elem_of_In. unfold initialCategories.
  rewrite dom_list_to_map_L, elem_of_list_to_set. simpl. reflexivity.
Qed.

(** The debug categories are the five of the constructor, whatever the
    page calls: [enableVerboseMode] and [enableProductionMode] only set
    ["all"], and [enableDebugCategory] ignores names that are not already
    categories, so it leaves the whole state unchanged for them. *)
Theorem debug_categories_fixed (st : console_mgr) (Hreach : console_reachable st) :
  (forall c, is_Some (debugCategories st !! c) <-> In c category_names) /\
  (forall c, ~ In c category_names -> enableDebugCategory c st = st).
Proof.
  assert (H : forall c, is_Some (debugCategories st !! c) <-> In c category_names).
  { intros c. rewrite (console_reachable_categories st Hreach c).
    apply initialCategories_is_Some. }
  split; [exact H|].
  intros c Hc. unfold enableDebugCategory.
  destruct (debugCategories st !! c) eqn:Hl; [|reflexivity].
  exfalso. apply Hc, H. rewrite Hl. eauto.
Qed.

Lemma debug_categories_fixed_witness :
  enableDebugCategory "payments" (fst (console_run cm_new [CVerbose; CDebug "booking"])) =
    fst (console_run cm_new [CVerbose; CDebug "booking"]).
Proof.
  apply (debug_categories_fixed (fst (console_run cm_new [CVerbose; CDebug "booking"]))).
  - rewrite console_run_fst. rewrite console_run_fst. cbn [console_run fst].
    apply cm_reach_step, cm_reach_step, cm_reach_new.
  - vm_compute. intuition discriminate.
Defined.

Lemma console_log_drops_only_tagged_witness :
  console_log cm_new [Some "[Booking] slots loaded"] = false /\
  productionMode cm_new = true.
Proof.
  assert (Hd : console_log cm_new [Some "[Booking] slots loaded"] = false)
    by (vm_compute; reflexivity).
  split; [exact Hd|].
  destruct (console_log_drops_only_tagged cm_new [Some "[Booking] slots loaded"] Hd)
    as [_ [Hp _]].
  exact Hp.
Defined.
